(** * Spectral-cube tutorial notebooks: masks, fits and remote fetches

    A shallow embedding of the code cells of the notebooks that decide
    how velocity masks are built (DameCube.ipynb), how NaN pixels reach
    the 2D fit (fitting_with_spectralcube.ipynb) and how remote cubes are
    fetched (the disk position-velocity notebook), together with the
    cutouts the notebooks slice out of cubes and maps, the bright part of
    the moment map and the header of the rotated frame.

    Finite floating point values are modelled as exact rationals, NaN
    and the two infinities as separate constructors.  The comparisons and
    the assignments the cells perform do not round; where a cell multiplies
    floats, the rounded product is a parameter. *)

From Stdlib Require Import String Bool ZArith QArith Qround Lqa Lia List.
Import ListNotations.

(** ** Array values *)

(** A float64 entry of a data array: NaN, an infinity or a finite value. *)
Inductive num : Type :=
| NaN : num
| NegInf : num
| PosInf : num
| Num (q : Q) : num.

(** [np.isnan] on one entry. *)
Definition isnan (v : num) : bool :=
  match v with NaN => true | _ => false end.

(** Strict comparison of rationals, as a boolean. *)
Definition Qlt_bool (a b : Q) : bool := negb (Qle_bool b a).

(** IEEE comparison [v > t] with a finite [t]: false whenever [v] is NaN,
    true for plus infinity. *)
Definition num_gt (v : num) (t : Q) : bool :=
  match v with
  | NaN => false
  | NegInf => false
  | PosInf => true
  | Num q => Qlt_bool t q
  end.

(** Basic slicing [l[start:stop]] of Python and numpy, step 1: a negative
    bound counts from the end, and both bounds are clipped to the list. *)
Definition py_bound {A} (l : list A) (i : Z) : nat :=
  let n := Z.of_nat (length l) in
  Z.to_nat (Z.min n (Z.max 0 (if (i <? 0)%Z then i + n else i)))%Z.

Definition py_slice {A} (start stop : Z) (l : list A) : list A :=
  let a := py_bound l start in
  let b := py_bound l stop in
  firstn (b - a) (skipn a l).

(** [np.arange(start, stop, step)]: ceil((stop - start) / step) entries,
    the i-th being start + i * step. *)
Definition arange (start stop step : Q) : list Q :=
  let n := Z.to_nat (Qceiling ((stop - start) / step)) in
  map (fun i => start + inject_Z (Z.of_nat i) * step) (seq 0 n).

(** [m.T] of a two-dimensional array given as a list of rows. *)
Definition transpose {A} (d : A) (m : list (list A)) : list (list A) :=
  match m with
  | [] => []
  | r :: _ => map (fun j => map (fun row => nth j row d) m) (seq 0 (length r))
  end.

(** ** DameCube.ipynb: the far 3 kpc arm mask *)

Module DameCube.

Definition lmin : Q := -12.
Definition lmax : Q := 25 # 2.

(** [def v_of_l(ell): return (56 + 4.0 * ell)*u.m/u.s] *)
Definition v_of_l (ell : Q) : Q := 56 + 4 * ell.

(** The lower and upper velocity bounds of the arm at longitude [l]. *)
Definition v_min (l : Q) : Q := v_of_l l - 13.
Definition v_max (l : Q) : Q := v_of_l l + 13.

(** [np.arange(lmax, lmin-0.01, -1/8.)] *)
Definition longitudes : list Q := arange lmax (lmin - (1 # 100)) (- (1 # 8)).

(** One entry of the list comprehension:
    [(cube.spectral_axis > v_of_l(l)-13) & (cube.spectral_axis < v_of_l(l)+13)] *)
Definition arm_row (spectral_axis : list Q) (l : Q) : list bool :=
  map (fun v => Qlt_bool (v_of_l l - 13) v && Qlt_bool v (v_of_l l + 13))
      spectral_axis.

(** [far3kpcarm_mask]: one row per longitude, one column per channel. *)
Definition far3kpcarm_mask (spectral_axis : list Q) : list (list bool) :=
  map (arm_row spectral_axis) longitudes.

(** [far3kpcarm_mask.T[:,None,:]], the array handed to [with_mask]. *)
Definition mask_arg (spectral_axis : list Q) : list (list (list bool)) :=
  map (fun row => [row]) (transpose false (far3kpcarm_mask spectral_axis)).

(** The data of [far3kpcarm], [cube[:, y0:y1+1, x0:x1]], where
    [y0 = int(ymin)], [y1 = int(ymax)], [x0 = int(xmax)] and
    [x1 = int(xmin)]. *)
Definition far3kpcarm_data {A} (cube : list (list (list A))) (y0 y1 x0 x1 : Z)
  : list (list (list A)) :=
  map (fun plane => map (py_slice x0 x1) (py_slice y0 (y1 + 1) plane)) cube.

(** [np.where(f3m0.value > 5, f3m0.value, np.nan)], the bright part of the
    moment map drawn on top of the grey image, for the cut [t = 5]. *)
Definition bright_only (f3m0 : list (list num)) (t : Q) : list (list num) :=
  map (map (fun v => if num_gt v t then v else NaN)) f3m0.

End DameCube.

(** ** fitting_with_spectralcube.ipynb: threshold mask and the 2D fit *)

(** IEEE arithmetic without rounding: NaN propagates, and so do the
    infinities unless they cancel. *)
Definition num_neg (a : num) : num :=
  match a with
  | NaN => NaN
  | NegInf => PosInf
  | PosInf => NegInf
  | Num p => Num (- p)
  end.

Definition num_add (a b : num) : num :=
  match a, b with
  | NaN, _ | _, NaN => NaN
  | PosInf, NegInf | NegInf, PosInf => NaN
  | PosInf, _ | _, PosInf => PosInf
  | NegInf, _ | _, NegInf => NegInf
  | Num p, Num q => Num (p + q)
  end.

Definition num_sub (a b : num) : num := num_add a (num_neg b).

(** An infinity times the finite [q]. *)
Definition inf_times (positive : bool) (q : Q) : num :=
  match q ?= 0 with
  | Eq => NaN
  | Gt => if positive then PosInf else NegInf
  | Lt => if positive then NegInf else PosInf
  end.

Definition num_mul (a b : num) : num :=
  match a, b with
  | NaN, _ | _, NaN => NaN
  | PosInf, PosInf | NegInf, NegInf => PosInf
  | PosInf, NegInf | NegInf, PosInf => NegInf
  | PosInf, Num q | Num q, PosInf => inf_times true q
  | NegInf, Num q | Num q, NegInf => inf_times false q
  | Num p, Num q => Num (p * q)
  end.

(** Equality of array values up to the representation of rationals. *)
Definition num_eq (a b : num) : Prop :=
  match a, b with
  | NaN, NaN => True
  | NegInf, NegInf => True
  | PosInf, PosInf => True
  | Num p, Num q => p == q
  | _, _ => False
  end.

(** Element-wise combination of two arrays of the same shape. *)
Definition zip_with {A B C} (f : A -> B -> C) (a : list A) (b : list B)
  : list C :=
  map (fun p => f (fst p) (snd p)) (combine a b).

Module Fitting.

(** [cube > 0.12 * u.K], the mask given to [cube.with_mask]. *)
Definition threshold_mask (cube : list (list (list num))) (t : Q)
  : list (list (list bool)) :=
  map (map (map (fun v => num_gt v t))) cube.

(** [moment0_cutout_quant[np.isnan(moment0_cutout_quant)] = 0.] *)
Definition nan_to_zero (img : list (list num)) : list (list num) :=
  map (map (fun v => if isnan v then Num 0 else v)) img.

(** Modelled from the spec: the least-squares statistic of the fitter
    ([fitting.LevMarLSQFitter], astropy, not part of the repository), the
    sum of squared residuals (observed - model)^2 over all entries of the
    observed array it is given. *)
Definition sum_sq (preds : list (list Q)) (data : list (list num)) : num :=
  fold_right num_add (Num 0)
    (concat (zip_with (zip_with (fun m d =>
       num_mul (num_sub d (Num m)) (num_sub d (Num m)))) preds data)).

(** The sum of squared residuals over the non-NaN observations only: a NaN
    entry contributes nothing. *)
Definition sum_sq_valid (preds : list (list Q)) (data : list (list num))
  : num :=
  fold_right num_add (Num 0)
    (concat (zip_with (zip_with (fun m d =>
       match d with
       | NaN => Num 0
       | _ => num_mul (num_sub d (Num m)) (num_sub d (Num m))
       end)) preds data)).



(** The claim that NaN observations are excluded from the residual sum:
    for the model values [preds], the statistic on the array the fit hands
    to the fitter is the sum of squared residuals over the non-NaN
    observations only. *)
Definition residual_sum_excludes_nan (preds : list (list Q))
  (obs : list (list num)) : Prop :=
  num_eq (sum_sq preds (nan_to_zero obs)) (sum_sq_valid preds obs).

Section Fit.

(** The fitter call [fit_p(p_init, xx, yy, data)] is astropy's. *)
Variable params : Type.
Variable fit_p :
  params -> list (list Q) -> list (list Q) -> list (list num) -> params.

(** The cell: NaNs are set to 0, then the fitter is called. *)
Definition p_gauss2D (p_init : params) (xx yy : list (list Q))
  (moment0_cutout : list (list num)) : params :=
  let moment0_cutout_quant := nan_to_zero moment0_cutout in
  fit_p p_init xx yy moment0_cutout_quant.

End Fit.

(** [moment0_cutout = moment0[y-size:y+size, x-size:x+size]].  [moment0]
    is a spectral-cube projection, whose slicing raises [ValueError] when
    the start of a slice is negative ([None] here); otherwise the slice is
    the one of the underlying array. *)
Definition moment0_cutout {A} (moment0 : list (list A)) (y x size : Z)
  : option (list (list A)) :=
  if ((y - size <? 0) || (x - size <? 0))%Z then None
  else Some (map (py_slice (x - size) (x + size))
                 (py_slice (y - size) (y + size) moment0)).

End Fitting.

(** ** Remote fetches *)

Module Fetch.

(** The calls a fetch makes to the file system and the network. *)
Inductive event : Type :=
| PathExists (path : string)
| DownloadFile (url : string) (cache : bool) (timeout : option nat)
| FtpConnect (host : string)
| FtpLogin
| FtpCwd (dir : string)
| OpenWrite (path : string)
| FtpRetrBinary (cmd : string)
| CloseFile (path : string)
| FtpQuit.

Definition is_ftp_connect (e : event) : bool :=
  match e with FtpConnect _ => true | _ => false end.



Definition filename : string :=
  "HD_163296_CO_220GHz.0.15arcsec.JvMcorr.image.pbcor.fits".

Definition maps_url : string :=
  "ftp://ftp.cv.nrao.edu/NRAO-staff/rloomis/MAPS/HD_163296/images/CO/0.15arcsec/HD_163296_CO_220GHz.0.15arcsec.JvMcorr.image.pbcor.fits".

Definition ftp_host : string := "ftp.cv.nrao.edu".

Definition ftp_dir : string :=
  "NRAO-staff/rloomis/MAPS/HD_163296/images/CO/0.15arcsec".

Definition retr_cmd : string :=
  "RETR HD_163296_CO_220GHz.0.15arcsec.JvMcorr.image.pbcor.fits".



Section Run.

(** Python exceptions; the handler of the fetch is a bare [except:]. *)
Context {exn : Type}.

(** What the outside world answers to each call: [None] is success,
    [Some e] raises [e]. *)
Record env : Type := {
  path_exists : string -> bool;
  download_file : string -> bool -> option nat -> exn + string;
  ftp_connect : string -> option exn;
  ftp_login : option exn;
  ftp_cwd : string -> option exn;
  open_write : string -> option exn;
  ftp_retrbinary : string -> option exn;
  ftp_quit : option exn
}.

(** A computation logs its calls and returns a value or raises. *)
Definition M (A : Type) : Type := list event -> (exn + A) * list event.

Definition ret {A} (a : A) : M A := fun tr => (inr a, tr).

Definition bind {A B} (c : M A) (k : A -> M B) : M B :=
  fun tr =>
    match c tr with
    | (inl e, tr') => (inl e, tr')
    | (inr a, tr') => k a tr'
    end.

(** [try: c except: h] *)
Definition try_except {A} (c : M A) (h : M A) : M A :=
  fun tr =>
    match c tr with
    | (inl _, tr') => h tr'
    | (inr a, tr') => (inr a, tr')
    end.

(** A logged call with the world's answer. *)
Definition call {A} (e : event) (r : exn + A) : M A :=
  fun tr => (r, tr ++ [e]).

Definition answer (r : option exn) : exn + unit :=
  match r with Some e => inl e | None => inr tt end.

(** [with open(path, 'wb') as fp: body]: the file is closed whether or
    not the body raises. *)
Definition with_open (w : env) (path : string) (body : M unit) : M unit :=
  bind (call (OpenWrite path) (answer (open_write w path)))
       (fun _ tr =>
          let '(r, tr') := body tr in (r, tr' ++ [CloseFile path])).

Notation "x <- c ;; k" := (bind c (fun x => k))
  (at level 61, c at next level, right associativity).
Notation "c ;;; k" := (bind c (fun _ => k))
  (at level 61, right associativity).

(** The [except:] branch of the disk notebook. *)
Definition ftp_fallback (w : env) : M unit :=
  call (FtpConnect ftp_host) (answer (ftp_connect w ftp_host)) ;;;
  call FtpLogin (answer (ftp_login w)) ;;;
  call (FtpCwd ftp_dir) (answer (ftp_cwd w ftp_dir)) ;;;
  with_open w filename
    (call (FtpRetrBinary retr_cmd) (answer (ftp_retrbinary w retr_cmd))) ;;;
  call FtpQuit (answer (ftp_quit w)).

(** The fetch cell of the disk notebook; the value is [filename] after
    the cell. *)
Definition fetch_maps_cube (w : env) : M string :=
  present <- call (PathExists filename) (inr (path_exists w filename)) ;;
  if negb present then
    try_except
      (call (DownloadFile maps_url true (Some 10%nat))
            (download_file w maps_url true (Some 10%nat)))
      (ftp_fallback w ;;; ret filename)
  else ret filename.



(** The first exception of the fallback session, if any. *)
Definition ftp_failure (w : env) : option exn :=
  match ftp_connect w ftp_host with
  | Some e => Some e
  | None =>
  match ftp_login w with
  | Some e => Some e
  | None =>
  match ftp_cwd w ftp_dir with
  | Some e => Some e
  | None =>
  match open_write w filename with
  | Some e => Some e
  | None =>
  match ftp_retrbinary w retr_cmd with
  | Some e => Some e
  | None => ftp_quit w
  end end end end end.

(** The claim about a fetch [prog] of the resource at [url]: when nothing
    is stored locally and the primary retrieval raises, the log holds
    exactly one fallback session. *)
Definition falls_back_once (url : string) (prog : env -> M string) : Prop :=
  forall w : env,
    (forall p, path_exists w p = false) ->
    (forall c t, exists e, download_file w url c t = inl e) ->
    length (filter is_ftp_connect (snd (prog w []))) = 1%nat.

End Run.



(** A world in which the cube is already in the working directory. *)
Definition on_disk : @env string := {|
  path_exists := fun _ => true;
  download_file := fun _ _ _ => inl "URLError"%string;
  ftp_connect := fun _ => Some "gaierror"%string;
  ftp_login := None;
  ftp_cwd := fun _ => None;
  open_write := fun _ => None;
  ftp_retrbinary := fun _ => None;
  ftp_quit := None
|}.

(** The calls of the fetch cell of the disk notebook, in program order. *)
Definition call_order : list event :=
  [PathExists filename;
   DownloadFile maps_url true (Some 10%nat);
   FtpConnect ftp_host;
   FtpLogin;
   FtpCwd ftp_dir;
   OpenWrite filename;
   FtpRetrBinary retr_cmd;
   CloseFile filename;
   FtpQuit].

Definition is_open_write (e : event) : bool :=
  match e with OpenWrite _ => true | _ => false end.

Definition is_close_file (e : event) : bool :=
  match e with CloseFile _ => true | _ => false end.

Definition is_ftp_quit (e : event) : bool :=
  match e with FtpQuit => true | _ => false end.

End Fetch.

(** ** The disk notebook: the header of the rotated frame *)

Module Reproject.

(** The value of a header card. *)
Inductive card : Type :=
| CardInt (z : Z)
| CardFloat (q : Q)
| CardStr (s : string).

(** A FITS header: keyword and value, in file order. *)
Definition header : Type := list (string * card).

(** [header[key]] *)
Fixpoint get_card (key : string) (h : header) : option card :=
  match h with
  | [] => None
  | (k, v) :: t => if String.eqb key k then Some v else get_card key t
  end.

(** [header[key] = value]: the card is updated in place when the keyword
    is present and appended otherwise. *)
Fixpoint set_card (key : string) (value : card) (h : header) : header :=
  match h with
  | [] => [(key, value)]
  | (k, v) :: t =>
      if String.eqb key k then (k, value) :: t
      else (k, v) :: set_card key value t
  end.

(** [np.abs] on a finite value. *)
Definition Qabs_ (q : Q) : Q := if Qle_bool 0 q then q else - q.

Section Header.

(** [np.cos(angle).value] and [np.sin(angle).value] for [angle = 45*u.deg]. *)
Variables cos_angle sin_angle : Q.

(** The float64 product: the exact product, rounded. *)
Variable fmul : Q -> Q -> Q.

(** The cell that edits [header = cutout.wcs.to_header()].  [shape0] is
    [cutout.shape[0]]; [cdelt0], [cdelt1], [cdelt2] are
    [cube.wcs.wcs.cdelt]. *)
Definition rotated_header (header : header) (shape0 : Z)
  (cdelt0 cdelt1 cdelt2 : Q) : Reproject.header :=
  let header := set_card "NAXIS" (CardInt 3) header in
  let header := set_card "NAXIS1" (CardInt 600) header in
  let header := set_card "NAXIS2" (CardInt 400) header in
  let header := set_card "NAXIS3" (CardInt shape0) header in
  let header :=
    set_card "CD1_1" (CardFloat (fmul cos_angle (Qabs_ cdelt0))) header in
  let header :=
    set_card "CD2_1" (CardFloat (fmul (- sin_angle) (Qabs_ cdelt0))) header in
  let header :=
    set_card "CD1_2" (CardFloat (fmul sin_angle (Qabs_ cdelt1))) header in
  let header :=
    set_card "CD2_2" (CardFloat (fmul cos_angle (Qabs_ cdelt1))) header in
  let header := set_card "CD3_3" (CardFloat cdelt2) header in
  let header := set_card "CRPIX1" (CardInt 300) header in
  let header := set_card "CRPIX2" (CardInt 200) header in
  header.

End Header.

(** The keywords the cell writes. *)
Definition written_keys : list string :=
  ["NAXIS"; "NAXIS1"; "NAXIS2"; "NAXIS3"; "CD1_1"; "CD2_1"; "CD1_2";
   "CD2_2"; "CD3_3"; "CRPIX1"; "CRPIX2"]%string.

(** The float stored under a keyword, when there is one. *)
Definition get_float (key : string) (h : header) : option Q :=
  match get_card key h with Some (CardFloat q) => Some q | _ => None end.

End Reproject.

(** * Properties *)

Lemma Qlt_bool_iff (a b : Q) : Qlt_bool a b = true <-> a < b.
Proof.
  unfold Qlt_bool. rewrite negb_true_iff.
  split; intro H.
  - apply Qnot_le_lt. intro Hle. apply Qle_bool_iff in Hle. congruence.
  - destruct (Qle_bool b a) eqn:E; [|reflexivity].
    apply Qle_bool_iff in E. exfalso. exact (Qlt_not_le _ _ H E).
Qed.

Lemma Forall2_map_r {A B} (P : A -> B -> Prop) (f : A -> B) (l : list A) :
  (forall a, P a (f a)) -> Forall2 P l (map f l).
Proof.
  intro H. induction l; simpl; constructor; auto.
Qed.

(** The sampled longitudes run from 12.5 down to -12 in steps of 1/8. *)
Lemma longitudes_length : length DameCube.longitudes = 197%nat.
Proof. reflexivity. Qed.

Lemma Forall2_nth_error_both {A B} (P : A -> B -> Prop) l l' i a b :
  Forall2 P l l' -> nth_error l i = Some a -> nth_error l' i = Some b -> P a b.
Proof.
  intro H. revert i. induction H; intros [|i] Ha Hb; simpl in *; try discriminate.
  - congruence.
  - eauto.
Qed.

(** C2 (as stated, refuted): with the lower bound inclusive the
    characterisation fails.  For the one-channel spectral axis [43], the
    longitude 0 (entry 100 of the sampled longitudes) has [v_min = 43]; the
    channel satisfies [v_min <= v < v_max] but the mask leaves it out. *)
Lemma velocity_mask_lower_bound_excluded :
  ~ Forall2
      (fun l row =>
         Forall2 (fun v (b : bool) =>
                    b = true <-> DameCube.v_min l <= v /\ v < DameCube.v_max l)
                 [43] row)
      DameCube.longitudes (DameCube.far3kpcarm_mask [43]).
Proof.
  intro H.
  pose (l := nth 100 DameCube.longitudes 0).
  assert (Hl : nth_error DameCube.longitudes 100 = Some l) by reflexivity.
  assert (Hr : nth_error (DameCube.far3kpcarm_mask [43]) 100 = Some [false])
    by reflexivity.
  pose proof (Forall2_nth_error_both _ _ _ _ _ _ H Hl Hr) as Hrow.
  inversion Hrow as [|v b ? ? Hb _]; subst.
  assert (Hin : false = true) by (apply Hb; split; vm_compute; congruence).
  discriminate.
Qed.

(** C2 (amended): in the far 3 kpc arm mask, at every sampled longitude a
    channel is included if and only if its velocity lies strictly between
    the two bounds, [v_min < v < v_max]. *)
Theorem velocity_mask_open_interval (spectral_axis : list Q) :
  Forall2
    (fun l row =>
       Forall2 (fun v (b : bool) =>
                  b = true <-> DameCube.v_min l < v /\ v < DameCube.v_max l)
               spectral_axis row)
    DameCube.longitudes (DameCube.far3kpcarm_mask spectral_axis).
Proof.
  unfold DameCube.far3kpcarm_mask.
  apply Forall2_map_r. intro l.
  unfold DameCube.arm_row. apply Forall2_map_r. intro v.
  rewrite andb_true_iff, !Qlt_bool_iff. reflexivity.
Qed.

(** ** Mask shapes *)

Lemma far3kpcarm_mask_rows (spectral_axis : list Q) :
  length (DameCube.far3kpcarm_mask spectral_axis) = 197%nat.
Proof.
  unfold DameCube.far3kpcarm_mask. rewrite length_map. apply longitudes_length.
Qed.

(** X21: the boolean array handed to [with_mask] in DameCube has one
    plane per channel of the spectral axis, and every plane is a single row
    of 197 entries, one per sampled longitude. *)
Theorem mask_arg_shape (spectral_axis : list Q) :
  length (DameCube.mask_arg spectral_axis) = length spectral_axis /\
  Forall (fun plane =>
            length plane = 1%nat /\
            Forall (fun row : list bool => length row = 197%nat) plane)
         (DameCube.mask_arg spectral_axis).
Proof.
  pose proof (far3kpcarm_mask_rows spectral_axis) as Hrows.
  unfold DameCube.mask_arg, transpose.
  destruct (DameCube.far3kpcarm_mask spectral_axis) as [|r m] eqn:E;
    [discriminate Hrows|].
  assert (Hr : length r = length spectral_axis).
  { unfold DameCube.far3kpcarm_mask in E.
    destruct DameCube.longitudes as [|l0 ls]; [discriminate E|].
    simpl in E. injection E as <- _.
    unfold DameCube.arm_row. apply length_map. }
  split.
  - rewrite !length_map, length_seq. exact Hr.
  - apply Forall_forall. intros plane Hin.
    apply in_map_iff in Hin as [row [<- Hin]].
    split; [reflexivity|].
    constructor; [|constructor].
    apply in_map_iff in Hin as [j [<- _]].
    rewrite length_map. exact Hrows.
Qed.

Lemma threshold_mask_shape (cube : list (list (list num))) (t : Q) :
  map (map (@length bool)) (Fitting.threshold_mask cube t) =
  map (map (@length num)) cube.
Proof.
  unfold Fitting.threshold_mask.
  rewrite map_map. apply map_ext. intro plane.
  rewrite map_map. apply map_ext. intro row.
  apply length_map.
Qed.

(** ** The 2D fit *)





Lemma nan_to_zero_no_nan (obs : list (list num)) :
  map (map isnan) (Fitting.nan_to_zero obs) = map (map (fun _ => false)) obs.
Proof.
  unfold Fitting.nan_to_zero. rewrite map_map. apply map_ext. intro row.
  rewrite map_map. apply map_ext. intros [| | |q]; reflexivity.
Qed.

Lemma nan_to_zero_entries (obs : list (list num)) :
  Forall2 (Forall2 (fun o d => match o with NaN => d = Num 0 | _ => d = o end))
          obs (Fitting.nan_to_zero obs).
Proof.
  unfold Fitting.nan_to_zero. apply Forall2_map_r. intro row.
  apply Forall2_map_r. intros [| | |q]; reflexivity.
Qed.

(** C1 (as stated, refuted): for the observed row [NaN, 2] and the model
    value 2 at both pixels, the fit hands the array [0, 2] to the fitter;
    the sum of squared residuals on that array is 4, while the sum over the
    non-NaN observation is 0.  The NaN observation is not excluded. *)
Lemma fit_does_not_exclude_nan :
  ~ Fitting.residual_sum_excludes_nan [[2; 2]] [[NaN; Num 2]].
Proof.
  unfold Fitting.residual_sum_excludes_nan. vm_compute. intro H.
  discriminate H.
Qed.

(** C1 (amended): the 2D fit of the notebook calls the fitter on the
    observed array in which every NaN entry is replaced by 0 and every
    other entry is left unchanged; that array has the shape of the observed
    one and holds no NaN.  NaN observations are therefore not excluded from
    the fit: each enters it as an observed 0. *)
Theorem fit_counts_nan_as_zero (params : Type)
  (fit_p : params -> list (list Q) -> list (list Q) -> list (list num) ->
           params)
  (p_init : params) (xx yy : list (list Q)) (obs : list (list num)) :
  Fitting.p_gauss2D params fit_p p_init xx yy obs =
    fit_p p_init xx yy (Fitting.nan_to_zero obs) /\
  Forall2 (Forall2 (fun o d => match o with NaN => d = Num 0 | _ => d = o end))
          obs (Fitting.nan_to_zero obs) /\
  map (map isnan) (Fitting.nan_to_zero obs) = map (map (fun _ => false)) obs.
Proof.
  split; [reflexivity|]. split.
  - apply nan_to_zero_entries.
  - apply nan_to_zero_no_nan.
Qed.




(** ** Remote fetches *)

(** The fallback session asks the same server for the same file as the
    primary URL. *)
Lemma fallback_same_resource :
  Fetch.maps_url =
    ("ftp://" ++ Fetch.ftp_host ++ "/" ++ Fetch.ftp_dir ++ "/" ++
     Fetch.filename)%string /\
  Fetch.retr_cmd = ("RETR " ++ Fetch.filename)%string.
Proof. split; reflexivity. Qed.

(** The fetch cell of the disk notebook does fall back exactly once. *)
Lemma maps_fetch_has_fallback (exn : Type) :
  @Fetch.falls_back_once exn Fetch.maps_url Fetch.fetch_maps_cube.
Proof.
  intros w Hmiss Hdown.
  destruct (Hdown true (Some 10%nat)) as [e He].
  unfold Fetch.fetch_maps_cube, Fetch.ftp_fallback, Fetch.with_open,
    Fetch.try_except, Fetch.bind, Fetch.call, Fetch.ret, Fetch.answer.
  rewrite Hmiss, He. simpl.
  destruct (Fetch.ftp_connect w Fetch.ftp_host), (Fetch.ftp_login w),
    (Fetch.ftp_cwd w Fetch.ftp_dir), (Fetch.open_write w Fetch.filename),
    (Fetch.ftp_retrbinary w Fetch.retr_cmd), (Fetch.ftp_quit w);
    reflexivity.
Qed.




(** * Further properties of the notebooks' cells *)

(** ** The sampled longitudes *)

Lemma nth_map_in_range {A B} (f : A -> B) (l : list A) (k : nat) (d : B)
  (d' : A) :
  (k < length l)%nat -> nth k (map f l) d = f (nth k l d').
Proof.
  intro Hk. rewrite (nth_indep _ d (f d')) by (rewrite length_map; exact Hk).
  apply map_nth.
Qed.

Lemma arange_In (start stop step l : Q) :
  In l (arange start stop step) ->
  exists i : nat,
    (i < Z.to_nat (Qceiling ((stop - start) / step)))%nat /\
    l = start + inject_Z (Z.of_nat i) * step.
Proof.
  unfold arange. intro H. apply in_map_iff in H as [i [<- Hi]].
  apply in_seq in Hi. exists i. split; [lia|reflexivity].
Qed.

Lemma inject_nat_bounds (i n : nat) :
  (i < n)%nat ->
  0 <= inject_Z (Z.of_nat i) /\
  inject_Z (Z.of_nat i) <= inject_Z (Z.of_nat n) - 1.
Proof.
  intro H. split.
  - change 0 with (inject_Z 0). rewrite <- Zle_Qle. lia.
  - change 1 with (inject_Z 1). unfold Qminus.
    rewrite <- inject_Z_opp, <- inject_Z_plus, <- Zle_Qle. lia.
Qed.

Lemma longitudes_range (l : Q) :
  In l DameCube.longitudes -> DameCube.lmin <= l /\ l <= DameCube.lmax.
Proof.
  intro H. apply arange_In in H as [i [Hi ->]].
  change (Z.to_nat _) with 197%nat in Hi.
  apply inject_nat_bounds in Hi. destruct Hi as [Hlo Hhi].
  assert (Hhi' : inject_Z (Z.of_nat i) <= 196)
    by (apply (Qle_trans _ _ _ Hhi); vm_compute; discriminate).
  unfold DameCube.lmin, DameCube.lmax. lra.
Qed.

Lemma longitudes_nth (k : nat) :
  (k < 197)%nat ->
  nth k DameCube.longitudes 0 =
  DameCube.lmax + inject_Z (Z.of_nat k) * - (1 # 8).
Proof.
  intro Hk. unfold DameCube.longitudes, arange.
  change (Z.to_nat _) with 197%nat.
  rewrite (nth_map_in_range _ _ _ _ 0%nat) by (rewrite length_seq; exact Hk).
  rewrite seq_nth by exact Hk. reflexivity.
Qed.

(** ** The arm mask *)

(** X1: whatever the spectral axis, the arm mask selects only channels
    whose velocity lies strictly between -5 and 119, the lowest lower bound
    and the highest upper bound over the sampled longitudes. *)
Theorem arm_mask_velocity_range (spectral_axis : list Q) :
  Forall (fun row =>
            Forall2 (fun v (b : bool) => b = true -> -5 < v /\ v < 119)
                    spectral_axis row)
         (DameCube.far3kpcarm_mask spectral_axis).
Proof.
  apply Forall_forall. intros row Hrow.
  unfold DameCube.far3kpcarm_mask in Hrow.
  apply in_map_iff in Hrow as [l [<- Hl]].
  apply longitudes_range in Hl.
  unfold DameCube.lmin, DameCube.lmax in Hl.
  unfold DameCube.arm_row. apply Forall2_map_r. intros v Hb.
  apply andb_true_iff in Hb as [H1 H2].
  apply Qlt_bool_iff in H1. apply Qlt_bool_iff in H2.
  unfold DameCube.v_of_l in *. lra.
Qed.

Lemma arm_mask_entry (spectral_axis : list Q) (k i : nat) :
  (k < 197)%nat -> (i < length spectral_axis)%nat ->
  nth i (nth k (DameCube.far3kpcarm_mask spectral_axis) []) false =
  Qlt_bool (DameCube.v_of_l (nth k DameCube.longitudes 0) - 13)
           (nth i spectral_axis 0) &&
  Qlt_bool (nth i spectral_axis 0)
           (DameCube.v_of_l (nth k DameCube.longitudes 0) + 13).
Proof.
  intros Hk Hi. unfold DameCube.far3kpcarm_mask.
  rewrite (nth_map_in_range _ _ _ _ 0)
    by (rewrite longitudes_length; exact Hk).
  unfold DameCube.arm_row.
  rewrite (nth_map_in_range _ _ _ _ 0) by exact Hi. reflexivity.
Qed.

Lemma arm_mask_entry_true (spectral_axis : list Q) (k i : nat) :
  nth i (nth k (DameCube.far3kpcarm_mask spectral_axis) []) false = true ->
  (k < 197)%nat /\ (i < length spectral_axis)%nat.
Proof.
  intro H.
  assert (Hk : (k < 197)%nat).
  { destruct (Nat.lt_ge_cases k 197) as [Hk|Hk]; [exact Hk|].
    rewrite (nth_overflow (DameCube.far3kpcarm_mask spectral_axis)) in H
      by (rewrite far3kpcarm_mask_rows; exact Hk).
    destruct i; discriminate H. }
  split; [exact Hk|].
  destruct (Nat.lt_ge_cases i (length spectral_axis)) as [Hi|Hi]; [exact Hi|].
  rewrite nth_overflow in H; [discriminate H|].
  unfold DameCube.far3kpcarm_mask.
  rewrite (nth_map_in_range _ _ _ _ 0)
    by (rewrite longitudes_length; exact Hk).
  unfold DameCube.arm_row. rewrite length_map. exact Hi.
Qed.

(** X2: for every channel the selected longitudes form one run: if the
    channel is selected in rows [k1] and [k3] of the mask, it is selected
    in every row between them. *)
Theorem arm_mask_contiguous (spectral_axis : list Q) (i k1 k2 k3 : nat) :
  (k1 <= k2)%nat -> (k2 <= k3)%nat ->
  nth i (nth k1 (DameCube.far3kpcarm_mask spectral_axis) []) false = true ->
  nth i (nth k3 (DameCube.far3kpcarm_mask spectral_axis) []) false = true ->
  nth i (nth k2 (DameCube.far3kpcarm_mask spectral_axis) []) false = true.
Proof.
  intros H12 H23 H1 H3.
  destruct (arm_mask_entry_true _ _ _ H1) as [Hk1 Hi].
  destruct (arm_mask_entry_true _ _ _ H3) as [Hk3 _].
  assert (Hk2 : (k2 < 197)%nat) by lia.
  rewrite arm_mask_entry in H1, H3 |- * by assumption.
  rewrite longitudes_nth in H1, H3 |- * by assumption.
  apply andb_true_iff in H1 as [H1a H1b].
  apply andb_true_iff in H3 as [H3a H3b].
  apply Qlt_bool_iff in H1a, H1b, H3a, H3b.
  apply andb_true_iff. rewrite !Qlt_bool_iff.
  assert (Ha : inject_Z (Z.of_nat k1) <= inject_Z (Z.of_nat k2))
    by (rewrite <- Zle_Qle; lia).
  assert (Hb : inject_Z (Z.of_nat k2) <= inject_Z (Z.of_nat k3))
    by (rewrite <- Zle_Qle; lia).
  unfold DameCube.v_of_l, DameCube.lmax in *. split; lra.
Qed.

(** The theorem on the axis [40, 50]: channel 1 is selected in rows 96 and
    104, hence in row 100. *)
Lemma arm_mask_contiguous_witness :
  nth 1 (nth 100 (DameCube.far3kpcarm_mask [40; 50]) []) false = true.
Proof.
  apply (arm_mask_contiguous [40; 50] 1 96 100 104).
  - lia.
  - lia.
  - reflexivity.
  - reflexivity.
Defined.

(** ** Transposition *)

Lemma transpose_length {A} (d : A) (r : list A) (m : list (list A)) :
  length (transpose d (r :: m)) = length r.
Proof.
  unfold transpose. rewrite length_map, length_seq. reflexivity.
Qed.

Lemma transpose_nth {A} (d : A) (m : list (list A)) (j k : nat) :
  (j < length (hd [] m))%nat -> (k < length m)%nat ->
  nth k (nth j (transpose d m) []) d = nth j (nth k m []) d.
Proof.
  intros Hj Hk. destruct m as [|r m]; [simpl in Hk; lia|].
  unfold transpose. simpl hd in Hj.
  rewrite (nth_map_in_range _ _ _ _ 0%nat) by (rewrite length_seq; exact Hj).
  rewrite seq_nth by exact Hj. simpl Nat.add.
  rewrite (nth_map_in_range _ _ _ _ []) by exact Hk. reflexivity.
Qed.

(** X3: the array handed to [with_mask] holds, at channel [i] and column
    [k], the window test of channel [i] at the [k]-th sampled longitude:
    the entry is true if and only if the channel's velocity lies strictly
    between that longitude's bounds. *)
Theorem mask_arg_entry (spectral_axis : list Q) (i k : nat) (v l : Q) :
  nth_error spectral_axis i = Some v ->
  nth_error DameCube.longitudes k = Some l ->
  (nth k (nth 0 (nth i (DameCube.mask_arg spectral_axis) []) []) false = true
   <-> DameCube.v_min l < v /\ v < DameCube.v_max l).
Proof.
  intros Hv Hl.
  assert (Hi : (i < length spectral_axis)%nat)
    by (apply nth_error_Some; congruence).
  assert (Hk : (k < 197)%nat)
    by (rewrite <- longitudes_length; apply nth_error_Some; congruence).
  pose proof (far3kpcarm_mask_rows spectral_axis) as Hrows.
  assert (Hhd : length (hd [] (DameCube.far3kpcarm_mask spectral_axis)) =
                length spectral_axis).
  { unfold DameCube.far3kpcarm_mask.
    destruct DameCube.longitudes as [|l0 ls]; [simpl in Hk; discriminate Hl ||
      (destruct k; discriminate Hl)|].
    simpl. unfold DameCube.arm_row. apply length_map. }
  unfold DameCube.mask_arg.
  rewrite (nth_map_in_range _ _ _ _ []).
  2:{ destruct (DameCube.far3kpcarm_mask spectral_axis) as [|r m] eqn:E;
        [discriminate Hrows|].
      rewrite transpose_length. simpl in Hhd. lia. }
  cbv beta. change (nth 0 [?x] []) with x.
  rewrite transpose_nth by lia.
  rewrite arm_mask_entry by assumption.
  rewrite (nth_error_nth _ _ 0 Hv), (nth_error_nth _ _ 0 Hl).
  rewrite andb_true_iff, !Qlt_bool_iff. reflexivity.
Qed.

(** The theorem at channel 0 of the axis [50] and the longitude of
    column 100. *)
Lemma mask_arg_entry_witness :
  nth 100 (nth 0 (nth 0 (DameCube.mask_arg [50]) []) []) false = true <->
  DameCube.v_min (nth 100 DameCube.longitudes 0) < 50 /\
  50 < DameCube.v_max (nth 100 DameCube.longitudes 0).
Proof.
  apply (mask_arg_entry [50] 0 100 50 (nth 100 DameCube.longitudes 0)).
  - reflexivity.
  - reflexivity.
Defined.

(** X4: transposing twice gives the array back, for every array with at
    least one row and one column whose rows have the same length. *)
Theorem transpose_involutive {A} (d : A) (m : list (list A)) (c : nat) :
  m <> [] -> (0 < c)%nat -> Forall (fun row => length row = c) m ->
  transpose d (transpose d m) = m.
Proof.
  intros Hne Hc Hrect.
  destruct m as [|r m]; [congruence|].
  assert (Hr : length r = c) by (inversion Hrect; assumption).
  assert (Hlen : length (transpose d (r :: m)) = c)
    by (rewrite transpose_length; exact Hr).
  assert (Hrow0 : length (hd [] (transpose d (r :: m))) = length (r :: m)).
  { unfold transpose. destruct r as [|a r]; [simpl in Hr; lia|].
    simpl. rewrite length_map. reflexivity. }
  assert (Houter : length (transpose d (transpose d (r :: m))) =
                   length (r :: m)).
  { destruct (transpose d (r :: m)) as [|t ts] eqn:E;
      [simpl in Hlen; lia|].
    rewrite transpose_length. exact Hrow0. }
  apply (nth_ext _ _ [] []); [exact Houter|].
  intros k Hk. rewrite Houter in Hk.
  assert (Hkrow : length (nth k (r :: m) []) = c).
  { rewrite Forall_forall in Hrect. apply Hrect. apply nth_In. exact Hk. }
  assert (Hkt : length (nth k (transpose d (transpose d (r :: m))) []) = c).
  { destruct (transpose d (r :: m)) as [|t ts] eqn:E;
      [simpl in Hlen; lia|].
    unfold transpose at 1.
    rewrite (nth_map_in_range _ _ _ _ 0%nat)
      by (rewrite length_seq; simpl hd in Hrow0; lia).
    rewrite length_map. exact Hlen. }
  apply (nth_ext _ _ d d); [congruence|].
  intros j Hj. rewrite Hkt in Hj.
  rewrite transpose_nth by lia.
  apply transpose_nth; simpl hd; lia.
Qed.

(** The theorem on a 2 by 3 array. *)
Lemma transpose_involutive_witness :
  transpose false (transpose false [[true; false; false];
                                    [false; true; false]]) =
  [[true; false; false]; [false; true; false]].
Proof.
  apply (transpose_involutive false _ 3).
  - discriminate.
  - lia.
  - repeat constructor.
Defined.

(** ** The bright part of the moment map *)

(** X5: [np.where(f3m0 > t, f3m0, nan)] keeps the shape of the map; an
    entry comes out unchanged exactly when it is strictly above the cut
    (a finite value above it, or plus infinity), and as NaN otherwise (a
    NaN entry stays NaN); applying the cut a second time changes nothing. *)
Theorem bright_only_entries (f3m0 : list (list num)) (t : Q) :
  Forall2 (Forall2 (fun v o =>
             match v with
             | NaN => o = NaN
             | NegInf => o = NaN
             | PosInf => o = PosInf
             | Num q => (t < q /\ o = Num q) \/ (q <= t /\ o = NaN)
             end))
          f3m0 (DameCube.bright_only f3m0 t) /\
  DameCube.bright_only (DameCube.bright_only f3m0 t) t =
  DameCube.bright_only f3m0 t.
Proof.
  unfold DameCube.bright_only. split.
  - apply Forall2_map_r. intro row. apply Forall2_map_r.
    intros [| | |q]; simpl; try reflexivity.
    destruct (Qlt_bool t q) eqn:E.
    + left. split; [apply Qlt_bool_iff; exact E|reflexivity].
    + right. split; [|reflexivity].
      apply Qnot_lt_le. intro H. apply Qlt_bool_iff in H. congruence.
  - rewrite map_map. apply map_ext. intro row.
    rewrite map_map. apply map_ext. intros [| | |q]; simpl; try reflexivity.
    destruct (Qlt_bool t q) eqn:E; simpl; [rewrite E|]; reflexivity.
Qed.

(** ** Slicing *)

Lemma py_bound_nat {A} (l : list A) (a : nat) :
  py_bound l (Z.of_nat a) = Nat.min a (length l).
Proof.
  unfold py_bound. destruct (Z.ltb_spec (Z.of_nat a) 0); lia.
Qed.

Lemma py_slice_nat {A} (l : list A) (a b : nat) :
  py_slice (Z.of_nat a) (Z.of_nat b) l =
  firstn (Nat.min b (length l) - Nat.min a (length l))
         (skipn (Nat.min a (length l)) l).
Proof.
  unfold py_slice. rewrite !py_bound_nat. reflexivity.
Qed.

Lemma py_slice_in_range {A} (l : list A) (a b : nat) :
  (a <= b)%nat -> (b <= length l)%nat ->
  length (py_slice (Z.of_nat a) (Z.of_nat b) l) = (b - a)%nat /\
  forall i d, (i < b - a)%nat ->
    nth i (py_slice (Z.of_nat a) (Z.of_nat b) l) d = nth (a + i) l d.
Proof.
  intros Hab Hb. rewrite py_slice_nat.
  replace (Nat.min b (length l)) with b by lia.
  replace (Nat.min a (length l)) with a by lia.
  split.
  - rewrite length_firstn, length_skipn. lia.
  - intros i d Hi. rewrite nth_firstn.
    destruct (Nat.ltb_spec i (b - a)); [|lia].
    apply nth_skipn.
Qed.

Lemma py_slice_segment {A} (start stop : Z) (l : list A) :
  exists pre post, l = pre ++ py_slice start stop l ++ post.
Proof.
  unfold py_slice.
  set (a := py_bound l start). set (k := (py_bound l stop - a)%nat).
  exists (firstn a l), (skipn k (skipn a l)).
  rewrite (firstn_skipn k (skipn a l)). symmetry. apply firstn_skipn.
Qed.

Lemma slice2d_in_range {A} (img : list (list A)) (ya yb xa xb : nat) :
  (ya <= yb)%nat -> (yb <= length img)%nat -> (xa <= xb)%nat ->
  Forall (fun row => (xb <= length row)%nat) img ->
  length (map (py_slice (Z.of_nat xa) (Z.of_nat xb))
              (py_slice (Z.of_nat ya) (Z.of_nat yb) img)) = (yb - ya)%nat /\
  forall i, (i < yb - ya)%nat ->
    length (nth i (map (py_slice (Z.of_nat xa) (Z.of_nat xb))
                       (py_slice (Z.of_nat ya) (Z.of_nat yb) img)) []) =
      (xb - xa)%nat /\
    forall j d, (j < xb - xa)%nat ->
      nth j (nth i (map (py_slice (Z.of_nat xa) (Z.of_nat xb))
                        (py_slice (Z.of_nat ya) (Z.of_nat yb) img)) []) d =
      nth (xa + j) (nth (ya + i) img []) d.
Proof.
  intros Hy Hyb Hx Hrows.
  destruct (py_slice_in_range img ya yb Hy Hyb) as [Hlen Hnth].
  split; [rewrite length_map; exact Hlen|].
  intros i Hi.
  rewrite (nth_map_in_range _ _ _ _ []) by (rewrite Hlen; exact Hi).
  rewrite (Hnth i [] Hi).
  assert (Hrow : (xb <= length (nth (ya + i) img []))%nat).
  { rewrite Forall_forall in Hrows. apply Hrows. apply nth_In. lia. }
  destruct (py_slice_in_range (nth (ya + i) img []) xa xb Hx Hrow)
    as [Hl Hn].
  split; [exact Hl|]. intros j d Hj. apply Hn. exact Hj.
Qed.

(** X6: when the bounds lie inside the cube the cutout of DameCube keeps
    every channel, takes the rows [y0] to [y1] inclusive and the columns
    [x0] to [x1] exclusive, and its entry [(c, i, j)] is the cube's entry
    [(c, y0 + i, x0 + j)]. *)
Theorem far3kpcarm_data_window {A} (cube : list (list (list A)))
  (y0 y1 x0 x1 : nat) :
  (y0 <= y1)%nat -> (x0 <= x1)%nat ->
  Forall (fun plane =>
            (y1 < length plane)%nat /\
            Forall (fun row => (x1 <= length row)%nat) plane) cube ->
  length (DameCube.far3kpcarm_data cube (Z.of_nat y0) (Z.of_nat y1)
            (Z.of_nat x0) (Z.of_nat x1)) = length cube /\
  forall c, (c < length cube)%nat ->
    length (nth c (DameCube.far3kpcarm_data cube (Z.of_nat y0) (Z.of_nat y1)
                     (Z.of_nat x0) (Z.of_nat x1)) []) = (y1 - y0 + 1)%nat /\
    forall i, (i <= y1 - y0)%nat ->
      length (nth i (nth c (DameCube.far3kpcarm_data cube (Z.of_nat y0)
                (Z.of_nat y1) (Z.of_nat x0) (Z.of_nat x1)) []) []) =
        (x1 - x0)%nat /\
      forall j d, (j < x1 - x0)%nat ->
        nth j (nth i (nth c (DameCube.far3kpcarm_data cube (Z.of_nat y0)
                 (Z.of_nat y1) (Z.of_nat x0) (Z.of_nat x1)) []) []) d =
        nth (x0 + j) (nth (y0 + i) (nth c cube []) []) d.
Proof.
  intros Hy Hx Hcube. unfold DameCube.far3kpcarm_data.
  split; [apply length_map|].
  intros c Hc.
  rewrite (nth_map_in_range _ _ _ _ []) by exact Hc.
  assert (Hplane : (y1 < length (nth c cube []))%nat /\
                   Forall (fun row => (x1 <= length row)%nat)
                          (nth c cube [])).
  { rewrite Forall_forall in Hcube. apply Hcube. apply nth_In. exact Hc. }
  destruct Hplane as [Hrows Hcols].
  replace (Z.of_nat y1 + 1)%Z with (Z.of_nat (S y1)) by lia.
  destruct (slice2d_in_range (nth c cube []) y0 (S y1) x0 x1) as [Hl Hn];
    try assumption; try lia.
  split; [rewrite Hl; lia|].
  intros i Hi. apply Hn. lia.
Qed.

(** The theorem on a cube of one channel, three rows and four columns. *)
Lemma far3kpcarm_data_window_witness :
  DameCube.far3kpcarm_data
    [[[1; 2; 3; 4]; [5; 6; 7; 8]; [9; 10; 11; 12]]]%Z 1 2 1 3 =
  [[[6; 7]; [10; 11]]]%Z /\
  length (DameCube.far3kpcarm_data
            [[[1; 2; 3; 4]; [5; 6; 7; 8]; [9; 10; 11; 12]]]%Z
            (Z.of_nat 1) (Z.of_nat 2) (Z.of_nat 1) (Z.of_nat 3)) = 1%nat.
Proof.
  split; [reflexivity|].
  apply (far3kpcarm_data_window
           [[[1; 2; 3; 4]; [5; 6; 7; 8]; [9; 10; 11; 12]]]%Z 1 2 1 3).
  - lia.
  - lia.
  - repeat constructor.
Defined.

(** X7: whatever the bounds (negative, reversed or beyond the cube), the
    cutout of DameCube never fails and never reorders or invents data:
    each of its planes is a run of consecutive rows of the cube's plane,
    each row cut down to a run of consecutive entries. *)
Theorem far3kpcarm_data_segments {A} (cube : list (list (list A)))
  (y0 y1 x0 x1 : Z) :
  Forall2
    (fun plane out =>
       exists above rows below,
         plane = above ++ rows ++ below /\
         Forall2 (fun row cut => exists left right,
                                   row = left ++ cut ++ right) rows out)
    cube (DameCube.far3kpcarm_data cube y0 y1 x0 x1).
Proof.
  unfold DameCube.far3kpcarm_data. apply Forall2_map_r. intro plane.
  destruct (py_slice_segment y0 (y1 + 1) plane) as [above [below Heq]].
  exists above, (py_slice y0 (y1 + 1) plane), below.
  split; [exact Heq|].
  apply Forall2_map_r. intro row. apply py_slice_segment.
Qed.

(** ** The cutout around the cloud *)

(** X8: when the window of half-width [size] around the pixel [(y, x)]
    lies inside the moment map, the slicing succeeds, the cutout has
    [2 * size] rows and columns, its entry [(i, j)] is the map's entry
    [(y - size + i, x - size + j)], and its entry [(size, size)], where the
    fit's initial mean is read, is the pixel [(y, x)] itself. *)
Theorem moment0_cutout_window {A} (moment0 : list (list A)) (y x size : nat)
  (d : A) :
  (0 < size)%nat -> (size <= y)%nat -> (size <= x)%nat ->
  (y + size <= length moment0)%nat ->
  Forall (fun row => (x + size <= length row)%nat) moment0 ->
  exists cutout,
    Fitting.moment0_cutout moment0 (Z.of_nat y) (Z.of_nat x)
                           (Z.of_nat size) = Some cutout /\
    length cutout = (2 * size)%nat /\
    (forall i j, (i < 2 * size)%nat -> (j < 2 * size)%nat ->
       length (nth i cutout []) = (2 * size)%nat /\
       nth j (nth i cutout []) d =
       nth (x - size + j) (nth (y - size + i) moment0 []) d) /\
    nth size (nth size cutout []) d = nth x (nth y moment0 []) d.
Proof.
  intros Hs Hy Hx Hrows Hcols. unfold Fitting.moment0_cutout.
  destruct (Z.ltb_spec (Z.of_nat y - Z.of_nat size) 0); [lia|].
  destruct (Z.ltb_spec (Z.of_nat x - Z.of_nat size) 0); [lia|].
  simpl orb. cbv iota.
  eexists. split; [reflexivity|].
  replace (Z.of_nat y - Z.of_nat size)%Z with (Z.of_nat (y - size)) by lia.
  replace (Z.of_nat y + Z.of_nat size)%Z with (Z.of_nat (y + size)) by lia.
  replace (Z.of_nat x - Z.of_nat size)%Z with (Z.of_nat (x - size)) by lia.
  replace (Z.of_nat x + Z.of_nat size)%Z with (Z.of_nat (x + size)) by lia.
  destruct (slice2d_in_range moment0 (y - size) (y + size) (x - size)
              (x + size)) as [Hl Hn]; try assumption; try lia.
  split; [rewrite Hl; lia|]. split.
  - intros i j Hi Hj. destruct (Hn i) as [Hli Hnj]; [lia|].
    split; [rewrite Hli; lia|]. apply Hnj. lia.
  - destruct (Hn size) as [_ Hnj]; [lia|].
    rewrite Hnj by lia. f_equal; [lia|]. f_equal. lia.
Qed.

(** The theorem on a 4 by 4 map, around the pixel (2, 2) with half-width 1. *)
Lemma moment0_cutout_window_witness :
  exists cutout,
    Fitting.moment0_cutout
      [[1; 2; 3; 4]; [5; 6; 7; 8]; [9; 10; 11; 12]; [13; 14; 15; 16]]%Z
      (Z.of_nat 2) (Z.of_nat 2) (Z.of_nat 1) = Some cutout /\
    nth 1 (nth 1 cutout []) 0%Z = 11%Z.
Proof.
  destruct (moment0_cutout_window
              [[1; 2; 3; 4]; [5; 6; 7; 8]; [9; 10; 11; 12];
               [13; 14; 15; 16]]%Z 2 2 1 0%Z)
    as [cutout [Hsome [_ [_ Hcentre]]]].
  - lia.
  - lia.
  - lia.
  - simpl. lia.
  - repeat constructor.
  - exists cutout. split; [exact Hsome|exact Hcentre].
Defined.



(** ** NaN replacement and the threshold mask *)

(** X11: replacing NaN by 0 a second time changes nothing, and an array
    without NaN is left as it is. *)
Theorem nan_to_zero_idempotent (img : list (list num)) :
  Fitting.nan_to_zero (Fitting.nan_to_zero img) = Fitting.nan_to_zero img /\
  (Forall (Forall (fun v => isnan v = false)) img ->
   Fitting.nan_to_zero img = img).
Proof.
  unfold Fitting.nan_to_zero. split.
  - rewrite map_map. apply map_ext. intro row.
    rewrite map_map. apply map_ext. intros [| | |q]; reflexivity.
  - intro H. induction H as [|row img Hrow _ IH]; [reflexivity|].
    simpl. f_equal; [|exact IH].
    induction Hrow as [|v row Hv _ IHrow]; [reflexivity|].
    simpl. rewrite Hv. f_equal. exact IHrow.
Qed.

(** X12: the threshold mask [cube > t] selects an entry if and only if
    the entry is strictly above the threshold: plus infinity or a finite
    value above it.  A NaN entry, minus infinity and an entry equal to the
    threshold are left out. *)
Theorem threshold_mask_entries (cube : list (list (list num))) (t : Q) :
  Forall2 (Forall2 (Forall2 (fun v (b : bool) =>
             b = true <-> v = PosInf \/ exists q, v = Num q /\ t < q)))
          cube (Fitting.threshold_mask cube t).
Proof.
  unfold Fitting.threshold_mask.
  apply Forall2_map_r. intro plane.
  apply Forall2_map_r. intro row.
  apply Forall2_map_r. intros [| | |q]; simpl.
  - split; [discriminate|]. intros [H|[q [H _]]]; discriminate H.
  - split; [discriminate|]. intros [H|[q [H _]]]; discriminate H.
  - split; [left; reflexivity|reflexivity].
  - rewrite Qlt_bool_iff. split.
    + intro H. right. exists q. split; [reflexivity|exact H].
    + intros [H|[q' [Hq H]]]; [discriminate H|]. injection Hq as ->. exact H.
Qed.

(** ** The fetch cell of the disk notebook, in every world *)

Ltac fetch_cases w :=
  unfold Fetch.fetch_maps_cube, Fetch.ftp_fallback, Fetch.with_open,
    Fetch.try_except, Fetch.bind, Fetch.call, Fetch.ret, Fetch.answer,
    Fetch.ftp_failure;
  destruct (Fetch.path_exists w Fetch.filename);
  destruct (Fetch.download_file w Fetch.maps_url true (Some 10%nat));
  destruct (Fetch.ftp_connect w Fetch.ftp_host), (Fetch.ftp_login w),
    (Fetch.ftp_cwd w Fetch.ftp_dir), (Fetch.open_write w Fetch.filename),
    (Fetch.ftp_retrbinary w Fetch.retr_cmd), (Fetch.ftp_quit w);
  simpl.

(** X13: when the cube is already in the working directory the cell makes
    no network call at all and keeps the local file name. *)
Theorem maps_fetch_uses_local_file (exn : Type) (w : @Fetch.env exn) :
  Fetch.path_exists w Fetch.filename = true ->
  Fetch.fetch_maps_cube w [] =
    (inr Fetch.filename, [Fetch.PathExists Fetch.filename]).
Proof.
  intro H. unfold Fetch.fetch_maps_cube, Fetch.bind, Fetch.call, Fetch.ret.
  simpl. rewrite H. reflexivity.
Qed.

(** The theorem in a world where the file is present. *)
Lemma maps_fetch_uses_local_file_witness :
  Fetch.fetch_maps_cube Fetch.on_disk [] =
    (inr Fetch.filename, [Fetch.PathExists Fetch.filename]).
Proof.
  apply (maps_fetch_uses_local_file string Fetch.on_disk). reflexivity.
Defined.

(** X14: in every world the calls of the cell are an initial part of one
    fixed sequence: existence test, download, FTP connect, login, cwd,
    open, RETR, close, quit.  No call is repeated or made out of order. *)
Theorem maps_fetch_call_order (exn : Type) (w : @Fetch.env exn) :
  exists n : nat,
    snd (Fetch.fetch_maps_cube w []) = firstn n Fetch.call_order.
Proof.
  fetch_cases w;
    first [ exists 1%nat; reflexivity | exists 2%nat; reflexivity
          | exists 3%nat; reflexivity | exists 4%nat; reflexivity
          | exists 5%nat; reflexivity | exists 6%nat; reflexivity
          | exists 8%nat; reflexivity | exists 9%nat; reflexivity ].
Qed.


(** X16: the file opened for the transfer is always closed again, also
    when the transfer raises; nothing is closed when the open itself
    failed or was never reached. *)
Theorem maps_fetch_closes_file (exn : Type) (w : @Fetch.env exn) :
  match Fetch.open_write w Fetch.filename with
  | None =>
      length (filter Fetch.is_close_file (snd (Fetch.fetch_maps_cube w []))) =
      length (filter Fetch.is_open_write (snd (Fetch.fetch_maps_cube w [])))
  | Some _ =>
      filter Fetch.is_close_file (snd (Fetch.fetch_maps_cube w [])) = []
  end.
Proof.
  fetch_cases w; reflexivity.
Qed.


(** ** The header of the rotated frame *)

Lemma get_set_same (key : string) (v : Reproject.card) (h : Reproject.header) :
  Reproject.get_card key (Reproject.set_card key v h) = Some v.
Proof.
  induction h as [|[k v'] t IH]; simpl.
  - rewrite String.eqb_refl. reflexivity.
  - destruct (String.eqb key k) eqn:E; simpl; rewrite E; [reflexivity|exact IH].
Qed.

Lemma get_set_other (key key' : string) (v : Reproject.card)
  (h : Reproject.header) :
  String.eqb key key' = false ->
  Reproject.get_card key (Reproject.set_card key' v h) =
  Reproject.get_card key h.
Proof.
  intro Hne. induction h as [|[k v'] t IH]; simpl.
  - rewrite Hne. reflexivity.
  - destruct (String.eqb key' k) eqn:E; simpl.
    + apply String.eqb_eq in E. subst k. rewrite Hne. reflexivity.
    + rewrite IH. reflexivity.
Qed.

Lemma not_in_eqb (key k : string) (l : list string) :
  ~ In key l -> In k l -> String.eqb key k = false.
Proof.
  intros Hn Hin. apply String.eqb_neq. intro E. subst. contradiction.
Qed.

(** X18: the cell leaves every card it does not write as it was: a
    keyword other than the eleven written ones reads the same in the
    edited header as in the header of the cutout. *)
Theorem rotated_header_keeps_other_cards (cos_angle sin_angle : Q)
  (fmul : Q -> Q -> Q) (h : Reproject.header) (shape0 : Z)
  (cdelt0 cdelt1 cdelt2 : Q) (key : string) :
  ~ In key Reproject.written_keys ->
  Reproject.get_card key
    (Reproject.rotated_header cos_angle sin_angle fmul h shape0
                              cdelt0 cdelt1 cdelt2) =
  Reproject.get_card key h.
Proof.
  intro Hn. unfold Reproject.rotated_header. cbv zeta.
  repeat (rewrite get_set_other;
          [|apply (not_in_eqb _ _ _ Hn); simpl; tauto]).
  reflexivity.
Qed.

(** The theorem for the keyword CRVAL1 of a two-card header. *)
Lemma rotated_header_keeps_other_cards_witness :
  Reproject.get_card "CRVAL1"
    (Reproject.rotated_header (3 # 5) (4 # 5) Qmult
       [("CRVAL1"%string, Reproject.CardFloat 269);
        ("NAXIS"%string, Reproject.CardInt 2)] 7 (-1 # 100) (1 # 100) 200) =
  Some (Reproject.CardFloat 269).
Proof.
  apply (rotated_header_keeps_other_cards (3 # 5) (4 # 5) Qmult
           [("CRVAL1"%string, Reproject.CardFloat 269);
            ("NAXIS"%string, Reproject.CardInt 2)] 7 (-1 # 100) (1 # 100) 200
           "CRVAL1").
  simpl. intro H.
  repeat (destruct H as [H|H]; [discriminate H|]). exact H.
Defined.

(** X19: whatever the header of the cutout held, the edited header
    describes a cube of 600 by 400 pixels with the cutout's number of
    channels, the cube's channel width on the spectral axis, and the
    reference pixel (300, 200) in the middle of the new frame. *)
Theorem rotated_header_written_cards (cos_angle sin_angle : Q)
  (fmul : Q -> Q -> Q) (h : Reproject.header) (shape0 : Z)
  (cdelt0 cdelt1 cdelt2 : Q) :
  let h' := Reproject.rotated_header cos_angle sin_angle fmul h shape0
                                     cdelt0 cdelt1 cdelt2 in
  Reproject.get_card "NAXIS" h' = Some (Reproject.CardInt 3) /\
  Reproject.get_card "NAXIS1" h' = Some (Reproject.CardInt 600) /\
  Reproject.get_card "NAXIS2" h' = Some (Reproject.CardInt 400) /\
  Reproject.get_card "NAXIS3" h' = Some (Reproject.CardInt shape0) /\
  Reproject.get_card "CD3_3" h' = Some (Reproject.CardFloat cdelt2) /\
  Reproject.get_card "CRPIX1" h' = Some (Reproject.CardInt (600 / 2)) /\
  Reproject.get_card "CRPIX2" h' = Some (Reproject.CardInt (400 / 2)).
Proof.
  cbv zeta. unfold Reproject.rotated_header. cbv zeta.
  repeat split;
    repeat (rewrite get_set_other by reflexivity); apply get_set_same.
Qed.

Lemma Qabs_nonneg_ (q : Q) : 0 <= Reproject.Qabs_ q.
Proof.
  unfold Reproject.Qabs_. destruct (Qle_bool 0 q) eqn:E.
  - apply Qle_bool_iff. exact E.
  - assert (H : ~ 0 <= q) by (intro H; apply Qle_bool_iff in H; congruence).
    apply Qnot_le_lt in H. lra.
Qed.

Lemma Qmult_nonpos_nonpos (a b : Q) : a <= 0 -> b <= 0 -> 0 <= a * b.
Proof.
  intros Ha Hb. setoid_replace (a * b) with ((- a) * (- b)) by ring.
  apply Qmult_le_0_compat; lra.
Qed.

Lemma Qmult_nonneg_nonpos (a b : Q) : 0 <= a -> b <= 0 -> a * b <= 0.
Proof.
  intros Ha Hb.
  assert (H : 0 <= a * (- b)) by (apply Qmult_le_0_compat; lra).
  setoid_replace (a * b) with (- (a * (- b))) by ring. lra.
Qed.

(** X20: the determinant of the four CD cards of the edited header is
    never negative, whatever the signs of the cube's pixel increments,
    which [np.abs] discards, and whatever the sign of the cosine and the
    sine, for every rounding of the float products that keeps the sign of
    the exact product. *)
Theorem rotated_header_cd_determinant (cos_angle sin_angle : Q)
  (fmul : Q -> Q -> Q) (h : Reproject.header) (shape0 : Z)
  (cdelt0 cdelt1 cdelt2 : Q) :
  (forall a b, 0 <= a * b -> 0 <= fmul a b) ->
  (forall a b, a * b <= 0 -> fmul a b <= 0) ->
  exists cd11 cd12 cd21 cd22 : Q,
    Reproject.get_float "CD1_1"
      (Reproject.rotated_header cos_angle sin_angle fmul h shape0
                                cdelt0 cdelt1 cdelt2) = Some cd11 /\
    Reproject.get_float "CD1_2"
      (Reproject.rotated_header cos_angle sin_angle fmul h shape0
                                cdelt0 cdelt1 cdelt2) = Some cd12 /\
    Reproject.get_float "CD2_1"
      (Reproject.rotated_header cos_angle sin_angle fmul h shape0
                                cdelt0 cdelt1 cdelt2) = Some cd21 /\
    Reproject.get_float "CD2_2"
      (Reproject.rotated_header cos_angle sin_angle fmul h shape0
                                cdelt0 cdelt1 cdelt2) = Some cd22 /\
    0 <= cd11 * cd22 - cd12 * cd21.
Proof.
  intros Hpos Hneg.
  pose proof (Qabs_nonneg_ cdelt0) as HA.
  pose proof (Qabs_nonneg_ cdelt1) as HB.
  set (A := Reproject.Qabs_ cdelt0) in *.
  set (B := Reproject.Qabs_ cdelt1) in *.
  exists (fmul cos_angle A), (fmul sin_angle B),
         (fmul (- sin_angle) A), (fmul cos_angle B).
  unfold Reproject.get_float, Reproject.rotated_header. cbv zeta.
  do 4 (split; [repeat (rewrite get_set_other by reflexivity);
                rewrite get_set_same; reflexivity|]).
  assert (Hdiag : 0 <= fmul cos_angle A * fmul cos_angle B).
  { destruct (Qlt_le_dec cos_angle 0) as [Hc|Hc].
    - apply Qmult_nonpos_nonpos; apply Hneg;
        rewrite Qmult_comm; apply Qmult_nonneg_nonpos; lra.
    - apply Qmult_le_0_compat; apply Hpos; apply Qmult_le_0_compat; lra. }
  assert (Hoff : fmul sin_angle B * fmul (- sin_angle) A <= 0).
  { destruct (Qlt_le_dec sin_angle 0) as [Hs|Hs].
    - rewrite Qmult_comm. apply Qmult_nonneg_nonpos.
      + apply Hpos. apply Qmult_le_0_compat; lra.
      + apply Hneg. rewrite Qmult_comm. apply Qmult_nonneg_nonpos; lra.
    - apply Qmult_nonneg_nonpos.
      + apply Hpos. apply Qmult_le_0_compat; lra.
      + apply Hneg. rewrite Qmult_comm. apply Qmult_nonneg_nonpos; lra. }
  set (P := fmul cos_angle A * fmul cos_angle B) in *.
  set (N := fmul sin_angle B * fmul (- sin_angle) A) in *.
  lra.
Qed.

(** The theorem for the exact product, a frame rotated by the angle with
    cosine 3/5 and sine 4/5, and pixel increments of opposite signs. *)
Lemma rotated_header_cd_determinant_witness :
  exists cd11 cd12 cd21 cd22 : Q,
    Reproject.get_float "CD1_1"
      (Reproject.rotated_header (3 # 5) (4 # 5) Qmult [] 7
                                (-1 # 100) (1 # 100) 200) = Some cd11 /\
    Reproject.get_float "CD1_2"
      (Reproject.rotated_header (3 # 5) (4 # 5) Qmult [] 7
                                (-1 # 100) (1 # 100) 200) = Some cd12 /\
    Reproject.get_float "CD2_1"
      (Reproject.rotated_header (3 # 5) (4 # 5) Qmult [] 7
                                (-1 # 100) (1 # 100) 200) = Some cd21 /\
    Reproject.get_float "CD2_2"
      (Reproject.rotated_header (3 # 5) (4 # 5) Qmult [] 7
                                (-1 # 100) (1 # 100) 200) = Some cd22 /\
    0 <= cd11 * cd22 - cd12 * cd21.
Proof.
  apply (rotated_header_cd_determinant (3 # 5) (4 # 5) Qmult [] 7
           (-1 # 100) (1 # 100) 200).
  - intros a b H. exact H.
  - intros a b H. exact H.
Defined.
